(** * The real-time synchronization hub

    A shallow embedding of the Claude Code WebSocket server, a Socket.IO
    server: the authentication and rate-limiting middlewares, the
    per-socket event handlers, the timers they arm, and the three
    in-memory stores [activeSessions], [activeProjects] and
    [messageHistory].

    Conventions.
    - A JS [Map] is a [gmap]; a JS [Set] is a [gset].
    - Socket.IO rooms are one more map, from room name to the ids of the
      sockets subscribed to it.
    - Every [emit] is logged in an outbox, together with the set of
      sockets it is addressed to; what a connection observes is the
      sub-sequence of the outbox addressed to it.
    - [uuidv4()], [new Date().toISOString()] and [Date.now()] are read
      from an environment record handed to every handler invocation.
    - [setTimeout] callbacks are queued; the event loop fires them as
      separate inputs.

    Left out: logging, the [typing] and [system_status] handlers, the
    hourly sweep of [messageHistory] and the shutdown hooks. None of them
    writes [activeSessions], [activeProjects] or a room subscription, and
    the sweep only ever removes history entries older than a day. *)

From Stdlib Require Import ZArith Lia.
From stdpp Require Import base option list gmap sets strings pretty.
Local Open Scope Z_scope.
#[local] Set Warnings "-clear-no-such-hyp".

(** ** Wire values *)

(** Decoded event payloads. Object keys are distinct; lookup takes the
    first binding. *)
#[local] Unset Elimination Schemes.
Inductive JsVal : Type :=
| JUndefined
| JNull
| JBool (b : bool)
| JNum (n : Z)
| JStr (s : string)
| JArr (items : list JsVal)
| JObj (fields : list (string * JsVal)).
#[local] Set Elimination Schemes.

Fixpoint js_get (k : string) (fields : list (string * JsVal)) : JsVal :=
  match fields with
  | [] => JUndefined
  | (k', v) :: rest => if String.eqb k k' then v else js_get k rest
  end.

(** JS truthiness of a string: [!s] holds exactly for the empty string. *)
Definition truthy (s : string) : bool := negb (String.eqb s "").

(** ** Joi *)

(** The error codes Joi reports for the rules used by [messageSchemas]. *)
Inductive JoiError : Type :=
| object_base
| object_unknown (key : string)
| any_required (key : string)
| any_only (key : string)
| string_base (key : string)
| string_empty (key : string)
| string_min (key : string)
| string_max (key : string)
| string_guid (key : string).

(** Outcome of [schema.validate(data)]: [{error}], or [{value}] where the
    value of an object schema that is not itself [.required()] may be
    [undefined]. *)
Inductive Validation (A : Type) : Type :=
| VError (details : JoiError)
| VUndefined
| VValue (value : A).
Arguments VError {A} details.
Arguments VUndefined {A}.
Arguments VValue {A} value.

#[global] Instance sum_ret {E} : MRet (sum E) := fun _ x => inr x.
#[global] Instance sum_bind {E} : MBind (sum E) := fun _ _ f m =>
  match m with
  | inl e => inl e
  | inr x => f x
  end.

Inductive StringRule : Type :=
| min (n : Z)
| max (n : Z)
| uuid.

Definition required {A} (k : string) (check : JsVal -> JoiError + A)
    (v : JsVal) : JoiError + A :=
  match v with
  | JUndefined => inl (any_required k)
  | _ => check v
  end.

Definition optional {A} (check : JsVal -> JoiError + A)
    (v : JsVal) : JoiError + option A :=
  match v with
  | JUndefined => inr None
  | _ => x ← check v; mret (Some x)
  end.

Definition with_default {A} (d : A) (check : JsVal -> JoiError + A)
    (v : JsVal) : JoiError + A :=
  match v with
  | JUndefined => inr d
  | _ => check v
  end.

(** [Joi.string().valid(...)]: the value must be one of the listed ones. *)
Definition joi_valid (k : string) (allowed : list string)
    (v : JsVal) : JoiError + string :=
  match v with
  | JStr s => if List.existsb (String.eqb s) allowed then inr s else inl (any_only k)
  | _ => inl (any_only k)
  end.

Definition known_keys (allowed : list string)
    (fields : list (string * JsVal)) : JoiError + unit :=
  match List.find (fun kv => negb (List.existsb (String.eqb (fst kv)) allowed)) fields with
  | Some kv => inl (object_unknown (fst kv))
  | None => inr tt
  end.

(** The payload of a verified token, as far as the server reads it. *)
Record Claims : Type := {
  claim_userId : string;
  claim_email : string
}.

(** ** Instances of the library functions, for running the model *)

Definition is_hex (c : Ascii.ascii) : bool :=
  let n := Ascii.nat_of_ascii c in
  ((48 <=? n) && (n <=? 57) || (65 <=? n) && (n <=? 70)
   || (97 <=? n) && (n <=? 102))%nat.

(** [s] has the shape of [shape], where [x] stands for a hex digit. *)
Fixpoint has_shape (shape s : string) : bool :=
  match shape, s with
  | EmptyString, EmptyString => true
  | String p shape', String c s' =>
      (if Ascii.eqb p (Ascii.ascii_of_nat 120) then is_hex c else Ascii.eqb p c)
      && has_shape shape' s'
  | _, _ => false
  end.

(** The canonical textual form of a UUID. *)
Definition canonical_uuid (s : string) : bool :=
  has_shape "xxxxxxxx-xxxx-xxxx-xxxx-xxxxxxxxxxxx" s.

(** A parser that accepts no text: payloads arrive decoded. *)
Definition no_json (s : string) : option JsVal := None.

(** A verifier that knows one token, signed with the development secret. *)
Definition one_token (token secret : string) : option Claims :=
  if String.eqb token "header.payload.signature"
     && String.eqb secret "claude-code-dev-secret"
  then Some {| claim_userId := "u1"; claim_email := "u1@example.org" |}
  else None.

Section Hub.
#[local] Set Default Proof Using "Type".

(** Three library functions stay parameters of the model:
    the pattern behind [Joi.string().uuid()], the JSON parser Joi applies
    to a string met where an object is expected, and [jwt.verify], which
    yields the decoded claims or throws. *)
Variable is_uuid : string -> bool.
Variable parse_json : string -> option JsVal.

Variable jwt_verify : string -> string -> option Claims.

Definition check_rule (k : string) (s : string) (r : StringRule) : JoiError + unit :=
  match r with
  | min n => if n <=? Z.of_nat (String.length s) then inr tt else inl (string_min k)
  | max n => if Z.of_nat (String.length s) <=? n then inr tt else inl (string_max k)
  | uuid => if is_uuid s then inr tt else inl (string_guid k)
  end.

Fixpoint check_rules (k : string) (s : string) (rs : list StringRule) : JoiError + unit :=
  match rs with
  | [] => inr tt
  | r :: rest => _ ← check_rule k s r; check_rules k s rest
  end.

(** [Joi.string()] followed by the rules [rs]: only strings, never the
    empty one, then the rules in the order they were chained. *)
Definition joi_string (k : string) (rs : list StringRule)
    (v : JsVal) : JoiError + string :=
  match v with
  | JStr s =>
      if String.eqb s "" then inl (string_empty k)
      else _ ← check_rules k s rs; mret s
  | _ => inl (string_base k)
  end.

(** [Joi.object()]: an object, or a string that parses to one. *)
Definition coerce_object (v : JsVal) : option (list (string * JsVal)) :=
  match v with
  | JObj fields => Some fields
  | JStr s =>
      match parse_json s with
      | Some (JObj fields) => Some fields
      | _ => None
      end
  | _ => None
  end.

Definition joi_object (v : JsVal) : JoiError + list (string * JsVal) :=
  match coerce_object v with
  | Some fields => inr fields
  | None => inl object_base
  end.

(** [Joi.object({...}).validate(data)] for a schema whose keys are checked
    by [keys]; keys outside [names] are not allowed. *)
Definition joi_validate {A} (names : list string)
    (keys : list (string * JsVal) -> JoiError + A) (data : JsVal) : Validation A :=
  match data with
  | JUndefined => VUndefined
  | _ =>
      match coerce_object data with
      | None => VError object_base
      | Some fields =>
          match (x ← keys fields; _ ← known_keys names fields; mret x) with
          | inl e => VError e
          | inr x => VValue x
          end
      end
  end.

(** *** messageSchemas *)

Record ChatValue : Type := {
  cv_content : string;
  cv_sessionId : string;
  cv_projectId : option string;
  cv_metadata : option (list (string * JsVal))
}.

Record CommandValue : Type := {
  tc_command : string;
  tc_sessionId : string;
  tc_projectId : option string;
  tc_workingDir : option string
}.

Record FileValue : Type := {
  fv_filePath : string;
  fv_content : string;
  fv_projectId : string;
  fv_action : string
}.

Record TtsValue : Type := {
  tv_message : string;
  tv_type : string;
  tv_priority : string
}.

Definition schema_chat_message : JsVal -> Validation ChatValue :=
  joi_validate ["content"; "sessionId"; "projectId"; "metadata"] (fun o =>
    content ← required "content" (joi_string "content" [min 1; max 10000]) (js_get "content" o);
    sessionId ← required "sessionId" (joi_string "sessionId" [uuid]) (js_get "sessionId" o);
    projectId ← optional (joi_string "projectId" []) (js_get "projectId" o);
    metadata ← optional joi_object (js_get "metadata" o);
    mret {| cv_content := content; cv_sessionId := sessionId;
            cv_projectId := projectId; cv_metadata := metadata |}).

Definition schema_terminal_command : JsVal -> Validation CommandValue :=
  joi_validate ["command"; "sessionId"; "projectId"; "workingDir"] (fun o =>
    command ← required "command" (joi_string "command" [min 1; max 1000]) (js_get "command" o);
    sessionId ← required "sessionId" (joi_string "sessionId" [uuid]) (js_get "sessionId" o);
    projectId ← optional (joi_string "projectId" []) (js_get "projectId" o);
    workingDir ← optional (joi_string "workingDir" []) (js_get "workingDir" o);
    mret {| tc_command := command; tc_sessionId := sessionId;
            tc_projectId := projectId; tc_workingDir := workingDir |}).

Definition schema_file_update : JsVal -> Validation FileValue :=
  joi_validate ["filePath"; "content"; "projectId"; "action"] (fun o =>
    filePath ← required "filePath" (joi_string "filePath" []) (js_get "filePath" o);
    content ← required "content" (joi_string "content" []) (js_get "content" o);
    projectId ← required "projectId" (joi_string "projectId" []) (js_get "projectId" o);
    action ← required "action" (joi_valid "action" ["create"; "update"; "delete"]) (js_get "action" o);
    mret {| fv_filePath := filePath; fv_content := content;
            fv_projectId := projectId; fv_action := action |}).

Definition schema_tts_notification : JsVal -> Validation TtsValue :=
  joi_validate ["message"; "type"; "priority"] (fun o =>
    message ← required "message" (joi_string "message" [min 1; max 500]) (js_get "message" o);
    type ← required "type" (joi_valid "type" ["info"; "success"; "warning"; "error"]) (js_get "type" o);
    priority ← with_default "normal" (joi_valid "priority" ["normal"; "urgent"]) (js_get "priority" o);
    mret {| tv_message := message; tv_type := type; tv_priority := priority |}).


(** ** Configuration (process.env) *)

Record Config : Type := {
  env_NODE_ENV : option string;
  env_JWT_SECRET : option string
}.

(** [process.env.X || d]: an unset or empty variable yields the default. *)
Definition env_or (v : option string) (d : string) : string :=
  match v with
  | Some s => if truthy s then s else d
  | None => d
  end.

Definition JWT_SECRET (cfg : Config) : string :=
  env_or (env_JWT_SECRET cfg) "claude-code-dev-secret".

Definition NODE_ENV (cfg : Config) : string :=
  env_or (env_NODE_ENV cfg) "development".

(** ** Environment readings *)

Record Env : Type := {
  uuidv4 : string;        (* uuidv4() *)
  toISOString : string;   (* new Date().toISOString() *)
  now : Z                 (* Date.now(), in milliseconds *)
}.

(** ** Rate limiter *)

(** The state kept per source address: the points consumed in the
    current window and the time at which that window ends. *)
Record Bucket : Type := {
  consumedPoints : Z;
  expiresAt : Z
}.

(** [points: 100], [duration: 60] (seconds). *)
Definition points : Z := 100.
Definition duration : Z := 60.

(** Modelled from the spec: the class [RateLimiterMemory] (package
    rate-limiter-flexible) is not among the sources. A call adds one point
    to the window of its key; a window that is seen expired, or a key
    seen for the first time, starts a new window with that one point. *)
Definition incrby (key : string) (t : Z) (rl : gmap string Bucket) : Bucket :=
  match rl !! key with
  | Some b =>
      if t <? expiresAt b
      then {| consumedPoints := consumedPoints b + 1; expiresAt := expiresAt b |}
      else {| consumedPoints := 1; expiresAt := t + duration * 1000 |}
  | None => {| consumedPoints := 1; expiresAt := t + duration * 1000 |}
  end.

(** Modelled from the spec: [rateLimiter.consume(key)] of the same class,
    which resolves while the points of the window do not exceed [points]
    and rejects once the quota is exhausted. *)
Definition consume (key : string) (t : Z)
    (rl : gmap string Bucket) : gmap string Bucket * bool :=
  let b := incrby key t rl in
  (<[key := b]> rl, consumedPoints b <=? points).

(** ** Sockets, messages, emissions *)

Record Handshake : Type := {
  auth_token : option string;       (* socket.handshake.auth?.token *)
  authorization : option string;    (* socket.handshake.headers?.authorization *)
  address : string                  (* socket.handshake.address *)
}.

Record Socket : Type := {
  socket_id : string;
  userId : string;
  userEmail : option string;
  isAuthenticated : bool
}.

Record Message : Type := {
  m_id : string;
  m_content : string;
  m_sessionId : string;
  m_projectId : option string;
  m_metadata : option (list (string * JsVal));
  m_userId : string;
  m_timestamp : string;
  m_role : option string;
  m_platform : string
}.

Record FileUpdate : Type := {
  u_id : string;
  u_value : FileValue;
  u_userId : string;
  u_timestamp : string
}.

Record Notification : Type := {
  n_id : string;
  n_value : option TtsValue;
  n_userId : string;
  n_timestamp : string
}.

(** What is emitted: the event name is the constructor. *)
Inductive Payload : Type :=
| error (message : string) (details : option JoiError)
| chat_message (m : Message)
| terminal_output (commandId sessionId output type timestamp : string)
| file_update (u : FileUpdate)
| tts_notification (n : Notification)
| project_joined (projectId : string)
| session_history (sessionId : string) (messages : list Message)
| session_joined (sessionId : string).

Record Emission : Type := {
  recipients : gset string;
  payload : Payload
}.

(** Pending [setTimeout] callbacks, with what their closures captured. *)
Record AiTimer : Type := {
  ai_sessionKey : string;
  ai_value : ChatValue
}.

Record CommandTimer : Type := {
  ct_socket : string;
  ct_commandId : string;
  ct_value : option CommandValue
}.

(** ** Server state *)

Record Server : Type := {
  rateLimiter : gmap string Bucket;
  sockets : gmap string Socket;
  rooms : gmap string (gset string);
  activeSessions : gmap string (gset string);
  activeProjects : gmap string (gset string);
  messageHistory : gmap string (list Message);
  stats_connections : Z;
  stats_messages : Z;
  timers_1000 : list AiTimer;
  timers_500 : list CommandTimer;
  outbox : list Emission
}.

Definition init : Server := {|
  rateLimiter := ∅; sockets := ∅; rooms := ∅;
  activeSessions := ∅; activeProjects := ∅; messageHistory := ∅;
  stats_connections := 0; stats_messages := 0;
  timers_1000 := []; timers_500 := []; outbox := []
|}.

Definition set_rateLimiter (x : gmap string Bucket) (st : Server) : Server :=
  {| rateLimiter := x; sockets := sockets st; rooms := rooms st;
     activeSessions := activeSessions st; activeProjects := activeProjects st;
     messageHistory := messageHistory st;
     stats_connections := stats_connections st; stats_messages := stats_messages st;
     timers_1000 := timers_1000 st; timers_500 := timers_500 st; outbox := outbox st |}.

Definition set_sockets (x : gmap string Socket) (st : Server) : Server :=
  {| rateLimiter := rateLimiter st; sockets := x; rooms := rooms st;
     activeSessions := activeSessions st; activeProjects := activeProjects st;
     messageHistory := messageHistory st;
     stats_connections := stats_connections st; stats_messages := stats_messages st;
     timers_1000 := timers_1000 st; timers_500 := timers_500 st; outbox := outbox st |}.

Definition set_rooms (x : gmap string (gset string)) (st : Server) : Server :=
  {| rateLimiter := rateLimiter st; sockets := sockets st; rooms := x;
     activeSessions := activeSessions st; activeProjects := activeProjects st;
     messageHistory := messageHistory st;
     stats_connections := stats_connections st; stats_messages := stats_messages st;
     timers_1000 := timers_1000 st; timers_500 := timers_500 st; outbox := outbox st |}.

Definition set_activeSessions (x : gmap string (gset string)) (st : Server) : Server :=
  {| rateLimiter := rateLimiter st; sockets := sockets st; rooms := rooms st;
     activeSessions := x; activeProjects := activeProjects st;
     messageHistory := messageHistory st;
     stats_connections := stats_connections st; stats_messages := stats_messages st;
     timers_1000 := timers_1000 st; timers_500 := timers_500 st; outbox := outbox st |}.

Definition set_activeProjects (x : gmap string (gset string)) (st : Server) : Server :=
  {| rateLimiter := rateLimiter st; sockets := sockets st; rooms := rooms st;
     activeSessions := activeSessions st; activeProjects := x;
     messageHistory := messageHistory st;
     stats_connections := stats_connections st; stats_messages := stats_messages st;
     timers_1000 := timers_1000 st; timers_500 := timers_500 st; outbox := outbox st |}.

Definition set_messageHistory (x : gmap string (list Message)) (st : Server) : Server :=
  {| rateLimiter := rateLimiter st; sockets := sockets st; rooms := rooms st;
     activeSessions := activeSessions st; activeProjects := activeProjects st;
     messageHistory := x;
     stats_connections := stats_connections st; stats_messages := stats_messages st;
     timers_1000 := timers_1000 st; timers_500 := timers_500 st; outbox := outbox st |}.

Definition set_connections (x : Z) (st : Server) : Server :=
  {| rateLimiter := rateLimiter st; sockets := sockets st; rooms := rooms st;
     activeSessions := activeSessions st; activeProjects := activeProjects st;
     messageHistory := messageHistory st;
     stats_connections := x; stats_messages := stats_messages st;
     timers_1000 := timers_1000 st; timers_500 := timers_500 st; outbox := outbox st |}.

Definition set_messages (x : Z) (st : Server) : Server :=
  {| rateLimiter := rateLimiter st; sockets := sockets st; rooms := rooms st;
     activeSessions := activeSessions st; activeProjects := activeProjects st;
     messageHistory := messageHistory st;
     stats_connections := stats_connections st; stats_messages := x;
     timers_1000 := timers_1000 st; timers_500 := timers_500 st; outbox := outbox st |}.

Definition set_timers_1000 (x : list AiTimer) (st : Server) : Server :=
  {| rateLimiter := rateLimiter st; sockets := sockets st; rooms := rooms st;
     activeSessions := activeSessions st; activeProjects := activeProjects st;
     messageHistory := messageHistory st;
     stats_connections := stats_connections st; stats_messages := stats_messages st;
     timers_1000 := x; timers_500 := timers_500 st; outbox := outbox st |}.

Definition set_timers_500 (x : list CommandTimer) (st : Server) : Server :=
  {| rateLimiter := rateLimiter st; sockets := sockets st; rooms := rooms st;
     activeSessions := activeSessions st; activeProjects := activeProjects st;
     messageHistory := messageHistory st;
     stats_connections := stats_connections st; stats_messages := stats_messages st;
     timers_1000 := timers_1000 st; timers_500 := x; outbox := outbox st |}.

Definition set_outbox (x : list Emission) (st : Server) : Server :=
  {| rateLimiter := rateLimiter st; sockets := sockets st; rooms := rooms st;
     activeSessions := activeSessions st; activeProjects := activeProjects st;
     messageHistory := messageHistory st;
     stats_connections := stats_connections st; stats_messages := stats_messages st;
     timers_1000 := timers_1000 st; timers_500 := timers_500 st; outbox := x |}.


(** ** Emitting *)

Definition members (room : string) (st : Server) : gset string :=
  default ∅ (rooms st !! room).

Definition emit (to : gset string) (p : Payload) (st : Server) : Server :=
  set_outbox (outbox st ++ [{| recipients := to; payload := p |}]) st.

(** [socket.emit(...)] *)
Definition socket_emit (socket : Socket) (p : Payload) (st : Server) : Server :=
  emit {[socket_id socket]} p st.

(** [socket.to(room).emit(...)]: the room, except the socket itself. *)
Definition socket_to (socket : Socket) (room : string) (p : Payload)
    (st : Server) : Server :=
  emit (members room st ∖ {[socket_id socket]}) p st.

(** [io.to(room).emit(...)] *)
Definition io_to (room : string) (p : Payload) (st : Server) : Server :=
  emit (members room st) p st.

(** [socket.join(room)] *)
Definition socket_join (socket : Socket) (room : string) (st : Server) : Server :=
  set_rooms (<[room := {[socket_id socket]} ∪ members room st]> (rooms st)) st.

(** The events a connection has been sent, oldest first. *)
Definition received (sid : string) (st : Server) : list Payload :=
  payload <$> filter (fun e => sid ∈ recipients e) (outbox st).

(** ** Authentication middleware *)

Fixpoint starts_with (p s : string) : bool :=
  match p, s with
  | EmptyString, _ => true
  | String a p', String b s' => if Ascii.eqb a b then starts_with p' s' else false
  | String _ _, EmptyString => false
  end.

Fixpoint drop_chars (n : nat) (s : string) : string :=
  match n, s with
  | O, _ => s
  | S n', String _ s' => drop_chars n' s'
  | S _, EmptyString => EmptyString
  end.

(** [s.replace(p, '')] for a non-empty string pattern: the first
    occurrence of [p] is removed. *)
Fixpoint remove_first (p s : string) : string :=
  if starts_with p s then drop_chars (String.length p) s
  else match s with
       | EmptyString => EmptyString
       | String c s' => String c (remove_first p s')
       end.

(** [a || b] on possibly missing strings. *)
Definition or_else (a b : option string) : option string :=
  match a with
  | Some s => if truthy s then a else b
  | None => b
  end.

Definition presented_token (hs : Handshake) : option string :=
  match or_else (auth_token hs) (authorization hs) with
  | Some t => if truthy t then Some t else None
  | None => None
  end.

(** Outcome of the first [io.use]: [next(new Error(msg))] or the socket
    with its identity set. *)
Definition authenticate (cfg : Config) (hs : Handshake) (sid : string)
    (env : Env) : string + Socket :=
  match presented_token hs with
  | None =>
      if String.eqb (NODE_ENV cfg) "development"
      then inr {| socket_id := sid; userId := "anonymous_" +:+ uuidv4 env;
                  userEmail := None; isAuthenticated := false |}
      else inl "Authentication required"
  | Some token =>
      match jwt_verify (remove_first "Bearer " token) (JWT_SECRET cfg) with
      | Some decoded =>
          inr {| socket_id := sid; userId := claim_userId decoded;
                 userEmail := Some (claim_email decoded); isAuthenticated := true |}
      | None => inl "Invalid authentication token"
      end
  end.

(** ** Connection: both middlewares, then [io.on('connection')] *)

Definition on_connection (socket : Socket) (st : Server) : Server :=
  let st := set_connections (stats_connections st + 1) st in
  let st := set_sockets (<[socket_id socket := socket]> (sockets st)) st in
  socket_join socket ("user:" +:+ userId socket) st.

Definition connect (cfg : Config) (hs : Handshake) (sid : string) (env : Env)
    (st : Server) : Server * (string + Socket) :=
  match authenticate cfg hs sid env with
  | inl err => (st, inl err)
  | inr socket =>
      let '(rl, admitted) := consume (address hs) (now env) (rateLimiter st) in
      let st := set_rateLimiter rl st in
      if admitted then (on_connection socket st, inr socket)
      else (st, inl "Rate limit exceeded")
  end.

(** ** Event handlers *)

Definition dquote : string := String (Ascii.ascii_of_nat 34) EmptyString.

Definition push_history (key : string) (m : Message) (st : Server) : Server :=
  set_messageHistory
    (<[key := default [] (messageHistory st !! key) ++ [m]]> (messageHistory st)) st.

(** [{ id: uuidv4(), ...value, userId, timestamp, platform }] *)
Definition new_message (socket : Socket) (value : ChatValue) (env : Env) : Message :=
  {| m_id := uuidv4 env;
     m_content := cv_content value;
     m_sessionId := cv_sessionId value;
     m_projectId := cv_projectId value;
     m_metadata := cv_metadata value;
     m_userId := userId socket;
     m_timestamp := toISOString env;
     m_role := None;
     m_platform := "websocket" |}.

(** The [aiResponse] object of the timer callback. *)
Definition new_aiResponse (value : ChatValue) (env : Env) : Message :=
  {| m_id := uuidv4 env;
     m_content := "AI Response to: " +:+ dquote
                  +:+ String.substring 0 50 (cv_content value) +:+ "..." +:+ dquote;
     m_sessionId := cv_sessionId value;
     m_projectId := None;
     m_metadata := None;
     m_userId := "claude-ai";
     m_timestamp := toISOString env;
     m_role := Some "assistant";
     m_platform := "claude-api" |}.

(** [socket.on('chat_message')] *)
Definition on_chat_message (socket : Socket) (data : JsVal) (env : Env)
    (st : Server) : Server :=
  match schema_chat_message data with
  | VError details =>
      socket_emit socket (error "Invalid message format" (Some details)) st
  | VUndefined =>
      (* the counter is bumped, then [value.sessionId] throws *)
      let st := set_messages (stats_messages st + 1) st in
      socket_emit socket (error "Failed to process message" None) st
  | VValue value =>
      let message := new_message socket value env in
      let st := set_messages (stats_messages st + 1) st in
      let sessionKey := "session:" +:+ cv_sessionId value in
      let st := push_history sessionKey message st in
      let st := socket_to socket sessionKey (chat_message message) st in
      set_timers_1000
        (timers_1000 st ++ [{| ai_sessionKey := sessionKey; ai_value := value |}]) st
  end.

(** The callback armed by [on_chat_message]. [None]: the callback threw
    (no history array under the key), which nothing catches. *)
Definition ai_response (t : AiTimer) (env : Env) (st : Server) : option Server :=
  let aiResponse := new_aiResponse (ai_value t) env in
  match messageHistory st !! ai_sessionKey t with
  | None => None
  | Some h =>
      let st := set_messageHistory
                  (<[ai_sessionKey t := h ++ [aiResponse]]> (messageHistory st)) st in
      Some (io_to (ai_sessionKey t) (chat_message aiResponse) st)
  end.

(** [socket.on('terminal_command')] *)
Definition on_terminal_command (socket : Socket) (data : JsVal) (env : Env)
    (st : Server) : Server :=
  match schema_terminal_command data with
  | VError details =>
      socket_emit socket (error "Invalid command format" (Some details)) st
  | VUndefined =>
      (* the timer is armed, then [value.command] throws in the log call *)
      let st := set_timers_500
                  (timers_500 st ++ [{| ct_socket := socket_id socket;
                                        ct_commandId := uuidv4 env;
                                        ct_value := None |}]) st in
      socket_emit socket (error "Failed to execute command" None) st
  | VValue value =>
      set_timers_500
        (timers_500 st ++ [{| ct_socket := socket_id socket;
                              ct_commandId := uuidv4 env;
                              ct_value := Some value |}]) st
  end.

Definition newline : string := String (Ascii.ascii_of_nat 10) EmptyString.

(** The callback armed by [on_terminal_command]. *)
Definition command_output (t : CommandTimer) (env : Env) (st : Server) : option Server :=
  match ct_value t with
  | None => None
  | Some value =>
      let output := "Executed: " +:+ tc_command value +:+ newline
                    +:+ "Output: Command completed successfully" in
      Some (emit {[ct_socket t]}
              (terminal_output (ct_commandId t) (tc_sessionId value) output
                 "success" (toISOString env)) st)
  end.

(** [socket.on('file_update')] *)
Definition on_file_update (socket : Socket) (data : JsVal) (env : Env)
    (st : Server) : Server :=
  match schema_file_update data with
  | VError details =>
      socket_emit socket (error "Invalid file update format" (Some details)) st
  | VUndefined =>
      socket_emit socket (error "Failed to update file" None) st
  | VValue value =>
      let update := {| u_id := uuidv4 env; u_value := value;
                       u_userId := userId socket;
                       u_timestamp := toISOString env |} in
      socket_to socket ("project:" +:+ fv_projectId value) (file_update update) st
  end.

(** [socket.on('tts_notification')] *)
Definition on_tts_notification (socket : Socket) (data : JsVal) (env : Env)
    (st : Server) : Server :=
  let notify value :=
    io_to ("user:" +:+ userId socket)
      (tts_notification {| n_id := uuidv4 env; n_value := value;
                           n_userId := userId socket;
                           n_timestamp := toISOString env |}) in
  match schema_tts_notification data with
  | VError details =>
      socket_emit socket (error "Invalid TTS notification format" (Some details)) st
  | VUndefined =>
      (* the notification goes out, then [value.message] throws in the log call *)
      let st := notify None st in
      socket_emit socket (error "Failed to send TTS notification" None) st
  | VValue value => notify (Some value) st
  end.

(** Adding a user to the member set kept under [id]. *)
Definition track (id user : string)
    (m : gmap string (gset string)) : gmap string (gset string) :=
  <[id := {[user]} ∪ default ∅ (m !! id)]> m.

(** [socket.on('join_project')]; a missing argument is the empty string. *)
Definition on_join_project (socket : Socket) (projectId : string)
    (st : Server) : Server :=
  if negb (truthy projectId)
  then socket_emit socket (error "Project ID is required" None) st
  else
    let st := socket_join socket ("project:" +:+ projectId) st in
    let st := set_activeProjects (track projectId (userId socket) (activeProjects st)) st in
    socket_emit socket (project_joined projectId) st.

(** [l.slice(-n)] *)
Definition slice_last {A} (n : nat) (l : list A) : list A :=
  drop (length l - n)%nat l.

(** [socket.on('join_session')]; a missing argument is the empty string. *)
Definition on_join_session (socket : Socket) (sessionId : string)
    (st : Server) : Server :=
  if negb (truthy sessionId)
  then socket_emit socket (error "Session ID is required" None) st
  else
    let st := socket_join socket ("session:" +:+ sessionId) st in
    let st := set_activeSessions (track sessionId (userId socket) (activeSessions st)) st in
    let sessionHistory := default [] (messageHistory st !! ("session:" +:+ sessionId)) in
    let st := socket_emit socket
                (session_history sessionId (slice_last 50 sessionHistory)) st in
    socket_emit socket (session_joined sessionId) st.

(** The body of both [forEach] loops of the disconnect handler. *)
Definition untrack (user : string)
    (m : gmap string (gset string)) : gmap string (gset string) :=
  omap (fun users : gset string =>
          if decide (user ∈ users)
          then let users := users ∖ {[user]} in
               if decide (size users = 0%nat) then None else Some users
          else Some users) m.

(** Socket.IO takes a closing socket out of every room. *)
Definition leave_all (sid : string)
    (r : gmap string (gset string)) : gmap string (gset string) :=
  omap (fun s : gset string =>
          let s := s ∖ {[sid]} in
          if decide (size s = 0%nat) then None else Some s) r.

(** [socket.on('disconnect')] *)
Definition on_disconnect (socket : Socket) (st : Server) : Server :=
  let st := set_sockets (delete (socket_id socket) (sockets st)) st in
  let st := set_rooms (leave_all (socket_id socket) (rooms st)) st in
  let st := set_connections (Z.max 0 (stats_connections st - 1)) st in
  let st := set_activeSessions (untrack (userId socket) (activeSessions st)) st in
  set_activeProjects (untrack (userId socket) (activeProjects st)) st.


(** ** The event loop *)

(** The four event kinds that have a schema and a handler. *)
Inductive Kind : Type :=
| k_chat_message
| k_terminal_command
| k_file_update
| k_tts_notification.

Definition schema_error (kind : Kind) (data : JsVal) : option JoiError :=
  let details {A} (v : Validation A) :=
    match v with
    | VError d => Some d
    | _ => None
    end in
  match kind with
  | k_chat_message => details (schema_chat_message data)
  | k_terminal_command => details (schema_terminal_command data)
  | k_file_update => details (schema_file_update data)
  | k_tts_notification => details (schema_tts_notification data)
  end.

Definition handle (kind : Kind) : Socket -> JsVal -> Env -> Server -> Server :=
  match kind with
  | k_chat_message => on_chat_message
  | k_terminal_command => on_terminal_command
  | k_file_update => on_file_update
  | k_tts_notification => on_tts_notification
  end.

Inductive Input : Type :=
| Connect (hs : Handshake) (sid : string)
| Event (kind : Kind) (sid : string) (data : JsVal)
| JoinProject (sid : string) (projectId : string)
| JoinSession (sid : string) (sessionId : string)
| Disconnect (sid : string)
| Timeout1000
| Timeout500.

Variable cfg : Config.

(** One turn of the loop; [None] when an exception escapes a timer
    callback. Events for a socket that is not connected have no handler. *)
Definition step (i : Input) (env : Env) (st : Server) : option Server :=
  let with_socket sid (h : Socket -> Server -> Server) :=
    match sockets st !! sid with
    | Some socket => Some (h socket st)
    | None => Some st
    end in
  match i with
  | Connect hs sid => Some (fst (connect cfg hs sid env st))
  | Event kind sid data => with_socket sid (fun socket => handle kind socket data env)
  | JoinProject sid projectId => with_socket sid (fun socket => on_join_project socket projectId)
  | JoinSession sid sessionId => with_socket sid (fun socket => on_join_session socket sessionId)
  | Disconnect sid => with_socket sid on_disconnect
  | Timeout1000 =>
      match timers_1000 st with
      | [] => Some st
      | t :: rest => ai_response t env (set_timers_1000 rest st)
      end
  | Timeout500 =>
      match timers_500 st with
      | [] => Some st
      | t :: rest => command_output t env (set_timers_500 rest st)
      end
  end.

Fixpoint run (inputs : list (Input * Env)) (st : Server) : option Server :=
  match inputs with
  | [] => Some st
  | (i, env) :: rest => st' ← step i env st; run rest st'
  end.


(** ** A session with two members, used in the examples *)

Definition s1 : string := "123e4567-e89b-42d3-a456-426614174000".

Definition development : Config :=
  {| env_NODE_ENV := None; env_JWT_SECRET := None |}.

Definition production : Config :=
  {| env_NODE_ENV := Some "production"; env_JWT_SECRET := Some "s3cret" |}.

Definition no_credential : Handshake :=
  {| auth_token := None; authorization := None; address := "10.0.0.1" |}.

Definition bearer (token : string) : Handshake :=
  {| auth_token := None; authorization := Some ("Bearer " +:+ token);
     address := "10.0.0.1" |}.

Definition at_ (u : string) (t : Z) : Env :=
  {| uuidv4 := u; toISOString := "2025-08-04T12:00:00.000Z"; now := t |}.

Definition anonymous (sid u : string) : Socket :=
  {| socket_id := sid; userId := "anonymous_" +:+ u;
     userEmail := None; isAuthenticated := false |}.

Definition A : Socket := anonymous "A" "a".
Definition B : Socket := anonymous "B" "b".
Definition C : Socket := anonymous "C" "c".

(** A second connection of A's identity. *)
Definition A' : Socket :=
  {| socket_id := "A2"; userId := userId A; userEmail := None;
     isAuthenticated := false |}.

Definition hi : JsVal := JObj [("content", JStr "hi"); ("sessionId", JStr s1)].

Definition hi_value : ChatValue :=
  {| cv_content := "hi"; cv_sessionId := s1;
     cv_projectId := None; cv_metadata := None |}.

(** A and B are connected and have joined session [s1]. *)
Definition room_AB : Server :=
  on_join_session B s1 (on_join_session A s1 (on_connection B (on_connection A init))).

(** Two connections of one identity, both in session [s1]. *)
Definition room_AA' : Server :=
  on_join_session A' s1 (on_join_session A s1 (on_connection A' (on_connection A init))).

(** The same two connections, and B, all three in session [s1]. *)
Definition room_AA'B : Server :=
  on_join_session B s1 (on_connection B room_AA').

(** A alone in session [s1]. *)
Definition room_A : Server := on_join_session A s1 (on_connection A init).

(** One hundred connection attempts of one address, one per millisecond. *)
Definition later_attempts : list Z := Z.of_nat <$> seq 1 99.
Definition hundred_attempts : list Z := 0 :: later_attempts.

(** [n] chat messages sent by A, one per millisecond. *)
Fixpoint chats (n : nat) (st : Server) : Server :=
  match n with
  | O => st
  | S n' => on_chat_message A hi (at_ (pretty n') (Z.of_nat n')) (chats n' st)
  end.

(** The claim that every member of [room], the sender included, is sent
    exactly [events] between [st] and the outcome [st']. *)
Definition observed_by_all (room : string) (events : list Payload)
    (st : Server) (st' : option Server) : Prop :=
  ∃ st2, st' = Some st2
    ∧ ∀ sid, sid ∈ members room st → received sid st2 = received sid st ++ events.

(** The claim that [seq] numbers the events of a history in strictly
    increasing order. *)
Definition increasing (seq : Message -> Z) (h : list Message) : Prop :=
  ∀ i j a b, (i < j)%nat → h !! i = Some a → h !! j = Some b → seq a < seq b.

(** No member set is empty. *)
Definition no_empty (m : gmap string (gset string)) : Prop :=
  ∀ id users, m !! id = Some users → users ≠ ∅.

(** The rate limiter after a series of calls for [key] at the times [ts]. *)
Definition consume_each (key : string) (ts : list Z)
    (rl : gmap string Bucket) : gmap string Bucket :=
  foldl (fun rl t => fst (consume key t rl)) rl ts.

(** ** Properties *)

(** Set reasoning, kept independent of the library parameters. *)
Local Ltac solve_sets :=
  try clear cfg; try clear jwt_verify; try clear parse_json; try clear is_uuid;
  set_solver.

(** Case analysis on the kind of an event and on the outcome of its
    validation. *)
Local Ltac by_kind kind data :=
  destruct kind; simpl in *;
  [ unfold on_chat_message; destruct (schema_chat_message data)
  | unfold on_terminal_command; destruct (schema_terminal_command data)
  | unfold on_file_update; destruct (schema_file_update data)
  | unfold on_tts_notification; destruct (schema_tts_notification data) ].

(** *** What an emission adds to each connection's view *)

Lemma received_emit (sid : string) (to : gset string) (p : Payload) (st : Server) :
  received sid (emit to p st)
  = received sid st ++ (if decide (sid ∈ to) then [p] else []).
Proof.
  unfold received, emit; simpl.
  rewrite filter_app, fmap_app. f_equal.
  rewrite filter_cons; simpl. destruct (decide (sid ∈ to)); reflexivity.
Qed.

Lemma received_socket_emit_self (socket : Socket) (p : Payload) (st : Server) :
  received (socket_id socket) (socket_emit socket p st)
  = received (socket_id socket) st ++ [p].
Proof.
  unfold socket_emit. rewrite received_emit.
  destruct (decide _) as [|Hn]; [reflexivity|]. exfalso; apply Hn; solve_sets.
Qed.

Lemma received_socket_emit_other (sid : string) (socket : Socket) (p : Payload)
    (st : Server) :
  sid ≠ socket_id socket →
  received sid (socket_emit socket p st) = received sid st.
Proof.
  intros Hne. unfold socket_emit. rewrite received_emit.
  destruct (decide _) as [Hin|]; [|apply app_nil_r].
  exfalso; apply Hne; solve_sets.
Qed.

(** *** Validation *)

(** C6. An event whose body fails the schema of its kind only makes the
    server emit one [error] event to the sending socket: the stores, the
    rooms and the timers are left as they were, and no other connection
    is sent anything. *)
Theorem validation_isolation (kind : Kind) (socket : Socket) (data : JsVal)
    (env : Env) (st : Server) (details : JoiError) :
  schema_error kind data = Some details →
  let st' := handle kind socket data env st in
  (∃ message, st' = socket_emit socket (error message (Some details)) st
     ∧ received (socket_id socket) st'
       = received (socket_id socket) st ++ [error message (Some details)])
  ∧ messageHistory st' = messageHistory st
  ∧ rooms st' = rooms st
  ∧ activeSessions st' = activeSessions st
  ∧ activeProjects st' = activeProjects st
  ∧ timers_1000 st' = timers_1000 st
  ∧ timers_500 st' = timers_500 st
  ∧ ∀ sid, sid ≠ socket_id socket → received sid st' = received sid st.
Proof.
  intros Herr st'.
  assert (∃ message, st' = socket_emit socket (error message (Some details)) st)
    as [message Hst'].
  { subst st'. by_kind kind data;
      try discriminate; injection Herr as ->; eexists; reflexivity. }
  rewrite Hst'. split.
  { exists message. split; [reflexivity|apply received_socket_emit_self]. }
  repeat split; try reflexivity.
  intros sid Hne. by apply received_socket_emit_other.
Qed.

(** *** Authentication *)

(** C7. A credential that is presented and that [jwt.verify] refuses is
    rejected whatever the configuration, and the refused connection
    leaves the server state untouched. *)
Theorem invalid_credential_rejected (c : Config) (hs : Handshake) (sid : string)
    (env : Env) (st : Server) (token : string) :
  presented_token hs = Some token →
  jwt_verify (remove_first "Bearer " token) (JWT_SECRET c) = None →
  authenticate c hs sid env = inl "Invalid authentication token"
  ∧ connect c hs sid env st = (st, inl "Invalid authentication token").
Proof.
  intros Htok Hbad.
  assert (authenticate c hs sid env = inl "Invalid authentication token") as Hauth.
  { unfold authenticate. rewrite Htok, Hbad. reflexivity. }
  split; [exact Hauth|]. unfold connect. rewrite Hauth. reflexivity.
Qed.

Lemma env_or_default (v : option string) (d : string) :
  env_or v d = d ↔ v = None ∨ v = Some "" ∨ v = Some d.
Proof.
  unfold env_or, truthy. destruct v as [s|].
  - destruct (String.eqb_spec s "") as [->|Hne]; simpl.
    + split; [auto|done].
    + split; [intros ->; auto|]. intros [|[|]]; congruence.
  - split; [auto|done].
Qed.

(** C2 (as the code has it). A connection that presents no credential is
    refused exactly when NODE_ENV resolves to something other than
    [development]; NODE_ENV resolves to [development] when it is set to
    that value and also when it is unset or empty, and the connection is
    then admitted under the identity [anonymous_<uuid>], unauthenticated. *)
Theorem missing_credential_policy (c : Config) (hs : Handshake) (sid : string)
    (env : Env) :
  presented_token hs = None →
  (NODE_ENV c = "development"
   ↔ env_NODE_ENV c = None ∨ env_NODE_ENV c = Some ""
     ∨ env_NODE_ENV c = Some "development")
  ∧ (NODE_ENV c = "development" →
     authenticate c hs sid env
     = inr {| socket_id := sid; userId := "anonymous_" +:+ uuidv4 env;
              userEmail := None; isAuthenticated := false |})
  ∧ (NODE_ENV c ≠ "development" →
     authenticate c hs sid env = inl "Authentication required").
Proof.
  intros Htok. split; [apply env_or_default|].
  unfold authenticate. rewrite Htok.
  destruct (String.eqb_spec (NODE_ENV c) "development"); split; intros; done.
Qed.


(** *** Membership *)

Lemma track_idem (id user : string) (m : gmap string (gset string)) :
  track id user (track id user m) = track id user m.
Proof.
  unfold track. rewrite lookup_insert_eq, insert_insert_eq. simpl.
  f_equal. solve_sets.
Qed.

Lemma socket_join_rooms (socket : Socket) (room : string) (st : Server) :
  rooms (socket_join socket room st) = track room (socket_id socket) (rooms st).
Proof. reflexivity. Qed.

Lemma untrack_lookup (user id : string) (m : gmap string (gset string)) :
  untrack user m !! id
  = match m !! id with
    | Some users =>
        if decide (user ∈ users)
        then if decide (size (users ∖ {[user]}) = 0%nat) then None
             else Some (users ∖ {[user]})
        else Some users
    | None => None
    end.
Proof. unfold untrack. rewrite lookup_omap. destruct (m !! id); reflexivity. Qed.

Lemma untrack_not_member (user id : string) (m : gmap string (gset string))
    (users : gset string) :
  untrack user m !! id = Some users → user ∉ users.
Proof.
  rewrite untrack_lookup. destruct (m !! id) as [us|]; [|done].
  destruct (decide (user ∈ us)) as [|Hn].
  - destruct (decide _); [done|]. intros Heq; injection Heq as <-. solve_sets.
  - intros Heq; injection Heq as <-. exact Hn.
Qed.

Lemma untrack_last_member (user id : string) (m : gmap string (gset string)) :
  m !! id = Some {[user]} → untrack user m !! id = None.
Proof.
  intros Hm. rewrite untrack_lookup, Hm.
  destruct (decide _) as [|Hn]; [|solve_sets].
  destruct (decide _) as [|Hn]; [done|].
  exfalso; apply Hn. apply size_empty_iff. solve_sets.
Qed.

(** C9. Joining a room a second time changes neither the member sets
    nor the room subscriptions nor any other store, for session rooms and
    for project rooms; and a join by another connection of an identity
    that is already a member leaves the member sets as they are. *)
Theorem join_idempotent (socket other : Socket) (id : string) (st : Server) :
  userId other = userId socket →
  (let st1 := on_join_session socket id st in
   let st2 := on_join_session socket id st1 in
   activeSessions st2 = activeSessions st1
   ∧ activeProjects st2 = activeProjects st1
   ∧ rooms st2 = rooms st1
   ∧ messageHistory st2 = messageHistory st1
   ∧ activeSessions (on_join_session other id st1) = activeSessions st1)
  ∧ (let st1 := on_join_project socket id st in
     let st2 := on_join_project socket id st1 in
     activeProjects st2 = activeProjects st1
     ∧ activeSessions st2 = activeSessions st1
     ∧ rooms st2 = rooms st1
     ∧ messageHistory st2 = messageHistory st1
     ∧ activeProjects (on_join_project other id st1) = activeProjects st1).
Proof.
  intros Hid. unfold on_join_session, on_join_project.
  destruct (truthy id); simpl; [|by repeat split].
  rewrite Hid.
  repeat split; try apply track_idem.
Qed.

Lemma untrack_no_empty (user : string) (m : gmap string (gset string)) :
  no_empty m → no_empty (untrack user m).
Proof.
  intros Hm id users. rewrite untrack_lookup.
  destruct (m !! id) as [us|] eqn:Hus; [|done].
  destruct (decide (user ∈ us)).
  - destruct (decide _) as [|Hsize]; [done|].
    intros Heq; injection Heq as <-. intros Hempty. apply Hsize.
    rewrite Hempty. apply size_empty.
  - intros Heq; injection Heq as <-. by apply (Hm id).
Qed.

Lemma track_no_empty (id user : string) (m : gmap string (gset string)) :
  no_empty m → no_empty (track id user m).
Proof.
  intros Hm id' users. unfold track.
  destruct (decide (id = id')) as [<-|Hne].
  - rewrite lookup_insert_eq. intros Heq; injection Heq as <-. solve_sets.
  - rewrite lookup_insert_ne by done. apply Hm.
Qed.

(** C10. When a connection closes, the registry changes in exactly this
    way: in every session room and every project room that holds its
    identity, the identity is taken out of the member set, and the room
    is deleted when that leaves the set empty; a room with other members
    survives with those members, a room that does not hold the identity
    keeps its member set, and no room appears. The closing socket leaves
    the connection table and the message history is untouched. So the
    identity is a member of no room afterwards, a room it was the only
    member of is gone, and no room is left with an empty member set; and
    this holds although another connection of the same identity stays
    open: that connection's identity is a member of no room any more. *)
Theorem disconnect_removes_identity (socket : Socket) (st : Server) :
  let st' := on_disconnect socket st in
  let after (m : gmap string (gset string)) (id : string) :=
    match m !! id with
    | Some users =>
        if decide (userId socket ∈ users)
        then if decide (size (users ∖ {[userId socket]}) = 0%nat) then None
             else Some (users ∖ {[userId socket]})
        else Some users
    | None => None
    end in
  (∀ id, activeSessions st' !! id = after (activeSessions st) id)
  ∧ (∀ id, activeProjects st' !! id = after (activeProjects st) id)
  ∧ (∀ id users other,
       activeSessions st !! id = Some users → other ∈ users →
       other ≠ userId socket →
       activeSessions st' !! id = Some (users ∖ {[userId socket]})
       ∧ other ∈ users ∖ {[userId socket]})
  ∧ (∀ id users other,
       activeProjects st !! id = Some users → other ∈ users →
       other ≠ userId socket →
       activeProjects st' !! id = Some (users ∖ {[userId socket]})
       ∧ other ∈ users ∖ {[userId socket]})
  ∧ (∀ id users, activeSessions st !! id = Some users → userId socket ∉ users →
                 activeSessions st' !! id = Some users)
  ∧ (∀ id users, activeProjects st !! id = Some users → userId socket ∉ users →
                 activeProjects st' !! id = Some users)
  ∧ sockets st' = delete (socket_id socket) (sockets st)
  ∧ messageHistory st' = messageHistory st
  ∧ (∀ id users, activeSessions st' !! id = Some users → userId socket ∉ users)
  ∧ (∀ id users, activeProjects st' !! id = Some users → userId socket ∉ users)
  ∧ (∀ id, activeSessions st !! id = Some {[userId socket]} →
           activeSessions st' !! id = None)
  ∧ (∀ id, activeProjects st !! id = Some {[userId socket]} →
           activeProjects st' !! id = None)
  ∧ (no_empty (activeSessions st) → no_empty (activeSessions st'))
  ∧ (no_empty (activeProjects st) → no_empty (activeProjects st'))
  ∧ ∀ sibling,
      sockets st !! socket_id sibling = Some sibling →
      socket_id sibling ≠ socket_id socket →
      userId sibling = userId socket →
      sockets st' !! socket_id sibling = Some sibling
      ∧ (∀ id users, activeSessions st' !! id = Some users → userId sibling ∉ users)
      ∧ (∀ id users, activeProjects st' !! id = Some users → userId sibling ∉ users).
Proof.
  assert (∀ (m : gmap string (gset string)) id users other,
            m !! id = Some users → other ∈ users → other ≠ userId socket →
            untrack (userId socket) m !! id = Some (users ∖ {[userId socket]})
            ∧ other ∈ users ∖ {[userId socket]}) as Hstay.
  { intros m id users other Hm Hin Hne.
    assert (other ∈ users ∖ {[userId socket]}) as Hother by solve_sets.
    split; [|exact Hother]. rewrite untrack_lookup, Hm.
    destruct (decide (userId socket ∈ users)) as [|Hout].
    - destruct (decide _) as [Hz|]; [|done].
      apply size_empty_iff in Hz. exfalso. solve_sets.
    - f_equal. solve_sets. }
  assert (∀ (m : gmap string (gset string)) id users,
            m !! id = Some users → userId socket ∉ users →
            untrack (userId socket) m !! id = Some users) as Hsame.
  { intros m id users Hm Hout. rewrite untrack_lookup, Hm.
    destruct (decide _); done. }
  intros st' after. subst st' after. unfold on_disconnect; simpl.
  split; [intros id; apply untrack_lookup|].
  split; [intros id; apply untrack_lookup|].
  split; [apply Hstay|]. split; [apply Hstay|].
  split; [apply Hsame|]. split; [apply Hsame|].
  split; [reflexivity|]. split; [reflexivity|].
  split; [intros id users; apply untrack_not_member|].
  split; [intros id users; apply untrack_not_member|].
  split; [intros id; apply untrack_last_member|].
  split; [intros id; apply untrack_last_member|].
  split; [apply untrack_no_empty|].
  split; [apply untrack_no_empty|].
  intros sibling Hsib Hne Hid. rewrite Hid.
  split; [rewrite lookup_delete_ne; done|].
  split; intros id users; apply untrack_not_member.
Qed.

(** *** History replay *)

Lemma slice_last_length {A} (n : nat) (l : list A) :
  (n ≤ length l)%nat → length (slice_last n l) = n.
Proof. intros Hn. unfold slice_last. rewrite length_drop. lia. Qed.

Lemma slice_last_suffix {A} (n : nat) (l : list A) :
  l = take (length l - n) l ++ slice_last n l.
Proof. unfold slice_last. symmetry. apply take_drop. Qed.

Lemma slice_last_short {A} (n : nat) (l : list A) :
  (length l ≤ n)%nat → slice_last n l = l.
Proof.
  intros Hn. unfold slice_last.
  replace (length l - n)%nat with 0%nat by lia. reflexivity.
Qed.

Lemma join_session_outbox (socket : Socket) (sessionId : string) (st : Server) :
  truthy sessionId = true →
  outbox (on_join_session socket sessionId st)
  = outbox st
    ++ [ {| recipients := {[socket_id socket]};
            payload := session_history sessionId
                         (slice_last 50
                            (default [] (messageHistory st !! ("session:" +:+ sessionId)))) |};
         {| recipients := {[socket_id socket]};
            payload := session_joined sessionId |} ].
Proof.
  intros Ht. unfold on_join_session. rewrite Ht; simpl.
  rewrite <- app_assoc. reflexivity.
Qed.

Lemma join_session_received_self (socket : Socket) (sessionId : string) (st : Server) :
  truthy sessionId = true →
  received (socket_id socket) (on_join_session socket sessionId st)
  = received (socket_id socket) st
    ++ [ session_history sessionId
           (slice_last 50
              (default [] (messageHistory st !! ("session:" +:+ sessionId))));
         session_joined sessionId ].
Proof.
  intros Ht. unfold on_join_session. rewrite Ht; simpl.
  rewrite !received_socket_emit_self, <- app_assoc. reflexivity.
Qed.

Lemma join_session_received_other (sid : string) (socket : Socket)
    (sessionId : string) (st : Server) :
  sid ≠ socket_id socket →
  received sid (on_join_session socket sessionId st) = received sid st.
Proof.
  intros Hne. unfold on_join_session.
  destruct (truthy sessionId); simpl;
    rewrite !received_socket_emit_other by done; reflexivity.
Qed.

Lemma join_session_members (socket : Socket) (sessionId : string) (st : Server) :
  truthy sessionId = true →
  activeSessions (on_join_session socket sessionId st)
  = track sessionId (userId socket) (activeSessions st).
Proof. intros Ht. unfold on_join_session. rewrite Ht. reflexivity. Qed.

(** C8. When a session's history holds more than 50 events, the
    [session_history] event sent on joining carries exactly the 50 most
    recent of them, in history order (oldest first), and it is addressed
    to the joining socket only: no other connection is sent anything. *)
Theorem replay_last_50 (socket : Socket) (sessionId : string) (st : Server)
    (h : list Message) :
  truthy sessionId = true →
  messageHistory st !! ("session:" +:+ sessionId) = Some h →
  (50 < length h)%nat →
  let st' := on_join_session socket sessionId st in
  let replay := drop (length h - 50) h in
  outbox st'
  = outbox st
    ++ [ {| recipients := {[socket_id socket]};
            payload := session_history sessionId replay |};
         {| recipients := {[socket_id socket]};
            payload := session_joined sessionId |} ]
  ∧ length replay = 50%nat
  ∧ h = take (length h - 50) h ++ replay
  ∧ ∀ sid, sid ≠ socket_id socket → received sid st' = received sid st.
Proof.
  intros Ht Hh Hlen st' replay. subst st' replay. repeat split.
  - rewrite join_session_outbox by done. rewrite Hh. reflexivity.
  - apply (slice_last_length 50 h). lia.
  - apply (slice_last_suffix 50 h).
  - intros sid Hne. by apply join_session_received_other.
Qed.

(** C4 (as the code has it). When the last member of a session room
    disconnects, the room's member set is deleted and the next join
    creates a fresh member set holding the joiner alone; the message
    history is kept, and the joiner is sent the last 50 events of it. *)
Theorem retired_room_keeps_history (socket joiner : Socket) (sessionId : string)
    (st : Server) :
  truthy sessionId = true →
  activeSessions st !! sessionId = Some {[userId socket]} →
  let st1 := on_disconnect socket st in
  let st2 := on_join_session joiner sessionId st1 in
  activeSessions st1 !! sessionId = None
  ∧ messageHistory st1 = messageHistory st
  ∧ activeSessions st2 !! sessionId = Some {[userId joiner]}
  ∧ received (socket_id joiner) st2
    = received (socket_id joiner) st1
      ++ [ session_history sessionId
             (slice_last 50
                (default [] (messageHistory st !! ("session:" +:+ sessionId))));
           session_joined sessionId ].
Proof.
  intros Ht Hlast st1 st2.
  assert (activeSessions st1 !! sessionId = None) as Hgone.
  { subst st1. unfold on_disconnect; simpl. by apply untrack_last_member. }
  assert (messageHistory st1 = messageHistory st) as Hhist by reflexivity.
  repeat split; [exact Hgone| |].
  - subst st2. rewrite join_session_members by done.
    unfold track. rewrite Hgone, lookup_insert_eq. simpl. f_equal. solve_sets.
  - subst st2. rewrite join_session_received_self by done. rewrite Hhist. reflexivity.
Qed.


(** *** Accepted chat messages *)

Lemma joi_string_truthy (k : string) (rs : list StringRule) (v : JsVal) (s : string) :
  joi_string k rs v = inr s → truthy s = true.
Proof.
  unfold joi_string, truthy. destruct v as [| | | |s'| |]; try discriminate.
  destruct (String.eqb s' "") eqn:He; [discriminate|].
  destruct (check_rules k s' rs); simpl; [discriminate|].
  intros Heq; injection Heq as <-. rewrite He. reflexivity.
Qed.

Lemma required_inr {X} (k : string) (check : JsVal -> JoiError + X) (v : JsVal) (x : X) :
  required k check v = inr x → check v = inr x.
Proof. unfold required. destruct v; done. Qed.

(** A validated chat message names a non-empty session. *)
Lemma chat_sessionId_truthy (data : JsVal) (value : ChatValue) :
  schema_chat_message data = VValue value → truthy (cv_sessionId value) = true.
Proof.
  unfold schema_chat_message, joi_validate.
  destruct (coerce_object data) as [o|]; [|destruct data; discriminate].
  destruct (required "content" _ _) as [|content]; simpl;
    [destruct data; discriminate|].
  destruct (required "sessionId" _ _) as [|sessionId] eqn:Hs; simpl;
    [destruct data; discriminate|].
  destruct (optional (joi_string "projectId" _) _); simpl;
    [destruct data; discriminate|].
  destruct (optional joi_object _); simpl; [destruct data; discriminate|].
  destruct (known_keys _ o); simpl; [destruct data; discriminate|].
  intros Hv. assert (value = {| cv_content := content; cv_sessionId := sessionId;
                                cv_projectId := o0; cv_metadata := o1 |}) as ->.
  { destruct data; congruence. }
  simpl. eapply joi_string_truthy, required_inr, Hs.
Qed.

Lemma chat_message_accepted (socket : Socket) (data : JsVal) (value : ChatValue)
    (env : Env) (st : Server) :
  schema_chat_message data = VValue value →
  let key := "session:" +:+ cv_sessionId value in
  let message := new_message socket value env in
  let st' := on_chat_message socket data env st in
  messageHistory st'
  = <[key := default [] (messageHistory st !! key) ++ [message]]> (messageHistory st)
  ∧ outbox st'
    = outbox st ++ [ {| recipients := members key st ∖ {[socket_id socket]};
                        payload := chat_message message |} ]
  ∧ timers_1000 st'
    = timers_1000 st ++ [ {| ai_sessionKey := key; ai_value := value |} ]
  ∧ rooms st' = rooms st
  ∧ activeSessions st' = activeSessions st
  ∧ rateLimiter st' = rateLimiter st.
Proof.
  intros Hv key message st'. subst st'. unfold on_chat_message. rewrite Hv.
  repeat split.
Qed.

Lemma received_chat_message (sid : string) (socket : Socket) (data : JsVal)
    (value : ChatValue) (env : Env) (st : Server) :
  schema_chat_message data = VValue value →
  received sid (on_chat_message socket data env st)
  = received sid st
    ++ (if decide (sid ∈ members ("session:" +:+ cv_sessionId value) st
                          ∖ {[socket_id socket]})
        then [chat_message (new_message socket value env)] else []).
Proof.
  intros Hv. unfold on_chat_message. rewrite Hv.
  unfold received; simpl.
  rewrite filter_app, fmap_app. f_equal.
  rewrite filter_cons; simpl. destruct (decide _); reflexivity.
Qed.

Lemma ai_response_fires (t : AiTimer) (env : Env) (st : Server) (h : list Message) :
  messageHistory st !! ai_sessionKey t = Some h →
  ai_response t env st
  = Some (io_to (ai_sessionKey t) (chat_message (new_aiResponse (ai_value t) env))
            (set_messageHistory
               (<[ai_sessionKey t := h ++ [new_aiResponse (ai_value t) env]]>
                  (messageHistory st)) st)).
Proof. intros Hh. unfold ai_response. rewrite Hh. reflexivity. Qed.

(** C1 (as the code has it). When a connection sends a valid chat
    message and the timer it arms fires next, every other connection
    subscribed to the session room is sent the message and then the AI
    response, in that order; the sender is sent the AI response only;
    connections outside the room are sent nothing; the history grows by
    the two events in that order, and a connection joining afterwards is
    sent the last 50 events of that history, which are exactly the two
    events when the session had no history before. *)
Theorem chat_delivery_order (socket joiner : Socket) (data : JsVal)
    (value : ChatValue) (env1 env2 : Env) (st : Server) :
  schema_chat_message data = VValue value →
  timers_1000 st = [] →
  let key := "session:" +:+ cv_sessionId value in
  let message := new_message socket value env1 in
  let aiResponse := new_aiResponse value env2 in
  let h := default [] (messageHistory st !! key) in
  ∃ st2,
    step Timeout1000 env2 (on_chat_message socket data env1 st) = Some st2
    ∧ (∀ sid, sid ∈ members key st → sid ≠ socket_id socket →
         received sid st2
         = received sid st ++ [chat_message message; chat_message aiResponse])
    ∧ (socket_id socket ∈ members key st →
         received (socket_id socket) st2
         = received (socket_id socket) st ++ [chat_message aiResponse])
    ∧ (∀ sid, sid ∉ members key st → received sid st2 = received sid st)
    ∧ messageHistory st2 !! key = Some (h ++ [message; aiResponse])
    ∧ received (socket_id joiner) (on_join_session joiner (cv_sessionId value) st2)
      = received (socket_id joiner) st2
        ++ [ session_history (cv_sessionId value)
               (slice_last 50 (h ++ [message; aiResponse]));
             session_joined (cv_sessionId value) ]
    ∧ (h = [] → slice_last 50 (h ++ [message; aiResponse]) = [message; aiResponse]).
Proof.
  intros Hv Hnone key message aiResponse h.
  destruct (chat_message_accepted socket data value env1 st Hv)
    as (Hhist & Hout & Htimers & Hrooms & _).
  fold key message in Hhist, Hout, Htimers.
  set (st1 := on_chat_message socket data env1 st) in *.
  assert (messageHistory (set_timers_1000 [] st1) !! key = Some (h ++ [message]))
    as Hkey.
  { simpl. rewrite Hhist. apply lookup_insert_eq. }
  eexists. split.
  { simpl. rewrite Htimers, Hnone. simpl.
    apply (ai_response_fires {| ai_sessionKey := key; ai_value := value |}).
    exact Hkey. }
  assert (∀ sid,
    received sid (io_to key (chat_message aiResponse)
      (set_messageHistory (<[key := (h ++ [message]) ++ [aiResponse]]>
         (messageHistory (set_timers_1000 [] st1))) (set_timers_1000 [] st1)))
    = (received sid st
       ++ (if decide (sid ∈ members key st ∖ {[socket_id socket]})
           then [chat_message message] else []))
      ++ (if decide (sid ∈ members key st) then [chat_message aiResponse] else []))
    as Hrecv.
  { intros sid. unfold io_to. rewrite received_emit.
    replace (members key _) with (members key st)
      by (unfold members; simpl; rewrite Hrooms; reflexivity).
    f_equal. subst st1. apply received_chat_message, Hv. }
  simpl in Hrecv |- *. repeat split.
  - intros sid Hin Hne. rewrite Hrecv.
    destruct (decide (sid ∈ members key st ∖ _)) as [|Hn]; [|solve_sets].
    destruct (decide (sid ∈ members key st)); [|done].
    rewrite <- app_assoc. reflexivity.
  - intros Hin. rewrite Hrecv.
    destruct (decide (_ ∈ members key st ∖ _)) as [|Hn]; [solve_sets|].
    destruct (decide (_ ∈ members key st)); [|done].
    rewrite app_nil_r. reflexivity.
  - intros sid Hout'. rewrite Hrecv.
    destruct (decide (sid ∈ members key st ∖ _)) as [|Hn]; [solve_sets|].
    destruct (decide (sid ∈ members key st)); [done|].
    rewrite !app_nil_r. reflexivity.
  - rewrite lookup_insert_eq, <- app_assoc. reflexivity.
  - rewrite join_session_received_self by (eapply chat_sessionId_truthy, Hv).
    simpl. fold key. rewrite lookup_insert_eq, <- app_assoc. reflexivity.
  - intros ->. reflexivity.
Qed.

(** C5 (as the code has it). An accepted chat message is stored with the
    identifier and the timestamp the server generated for it and carries
    no sequence number; it is appended at the end of its session's
    history, other histories being untouched, and so is the AI response
    when its timer fires: a history lists its events in the order they
    were accepted. *)
Theorem history_in_acceptance_order (socket : Socket) (data : JsVal)
    (value : ChatValue) (env env' : Env) (st : Server) :
  schema_chat_message data = VValue value →
  let key := "session:" +:+ cv_sessionId value in
  let message := new_message socket value env in
  let st1 := on_chat_message socket data env st in
  m_id message = uuidv4 env
  ∧ m_timestamp message = toISOString env
  ∧ messageHistory st1 !! key
    = Some (default [] (messageHistory st !! key) ++ [message])
  ∧ (∀ k, k ≠ key → messageHistory st1 !! k = messageHistory st !! k)
  ∧ ∀ (t : AiTimer) (h : list Message) (st0 : Server),
      messageHistory st0 !! ai_sessionKey t = Some h →
      ∃ st2, ai_response t env' st0 = Some st2
        ∧ m_id (new_aiResponse (ai_value t) env') = uuidv4 env'
        ∧ m_timestamp (new_aiResponse (ai_value t) env') = toISOString env'
        ∧ messageHistory st2 !! ai_sessionKey t
          = Some (h ++ [new_aiResponse (ai_value t) env'])
        ∧ ∀ k, k ≠ ai_sessionKey t → messageHistory st2 !! k = messageHistory st0 !! k.
Proof.
  intros Hv key message st1.
  destruct (chat_message_accepted socket data value env st Hv) as (Hhist & _).
  fold key message st1 in Hhist.
  repeat split.
  - rewrite Hhist. apply lookup_insert_eq.
  - intros k Hk. rewrite Hhist. by apply lookup_insert_ne.
  - intros t h st0 Hh. eexists. split; [by apply ai_response_fires|].
    simpl. repeat split.
    + apply lookup_insert_eq.
    + intros k Hk. by apply lookup_insert_ne.
Qed.


(** *** Rate limiting *)

Lemma consume_lookup (key : string) (t : Z) (rl : gmap string Bucket) :
  fst (consume key t rl) !! key = Some (incrby key t rl).
Proof. unfold consume; simpl. apply lookup_insert_eq. Qed.

Lemma consume_each_in_window (key : string) (ts : list Z)
    (rl : gmap string Bucket) (b : Bucket) :
  rl !! key = Some b →
  Forall (fun t => t < expiresAt b) ts →
  consume_each key ts rl !! key
  = Some {| consumedPoints := consumedPoints b + Z.of_nat (length ts);
            expiresAt := expiresAt b |}.
Proof.
  intros Hb Hts. revert rl b Hb Hts.
  induction ts as [|t ts IH]; intros rl b Hb Hts.
  - simpl. rewrite Hb, Z.add_0_r. by destruct b.
  - apply Forall_cons in Hts as [Ht Hts].
    change (consume_each key (t :: ts) rl)
      with (consume_each key ts (fst (consume key t rl))).
    rewrite (IH _ (incrby key t rl)).
    + unfold incrby. rewrite Hb.
      destruct (Z.ltb_spec t (expiresAt b)); [|lia]. simpl.
      f_equal. f_equal. rewrite Nat2Z.inj_succ. lia.
    + apply consume_lookup.
    + unfold incrby. rewrite Hb.
      destruct (Z.ltb_spec t (expiresAt b)); [|lia]. exact Hts.
Qed.

(** The count kept for a key after a window was opened at [t0] and
    further calls were made at the times [ts] inside it. *)
Lemma consume_each_window (key : string) (t0 : Z) (ts : list Z)
    (rl : gmap string Bucket) :
  (∀ b, rl !! key = Some b → expiresAt b ≤ t0) →
  Forall (fun t => t < t0 + duration * 1000) ts →
  consume_each key (t0 :: ts) rl !! key
  = Some {| consumedPoints := Z.of_nat (length (t0 :: ts));
            expiresAt := t0 + duration * 1000 |}.
Proof.
  intros Hopen Hts.
  assert (incrby key t0 rl
          = {| consumedPoints := 1; expiresAt := t0 + duration * 1000 |}) as Hfirst.
  { unfold incrby. destruct (rl !! key) as [b|] eqn:Hb; [|reflexivity].
    specialize (Hopen b eq_refl).
    destruct (Z.ltb_spec t0 (expiresAt b)); [lia|reflexivity]. }
  change (consume_each key (t0 :: ts) rl)
    with (consume_each key ts (fst (consume key t0 rl))).
  rewrite (consume_each_in_window key ts _ (incrby key t0 rl)).
  - rewrite Hfirst. simpl. f_equal. f_equal. lia.
  - apply consume_lookup.
  - rewrite Hfirst. exact Hts.
Qed.

(** No event handler consults the limiter: its state has no influence on
    what a handler does. *)
Lemma handle_ignores_rateLimiter (kind : Kind) (socket : Socket) (data : JsVal)
    (env : Env) (st : Server) (rl : gmap string Bucket) :
  handle kind socket data env (set_rateLimiter rl st)
  = set_rateLimiter rl (handle kind socket data env st).
Proof.
  by_kind kind data; reflexivity.
Qed.

(** The handshake quota. The limiter counts connection attempts of one
    source address that passed authentication. After a window was opened
    at [t0] and [n] attempts in all were made inside it, the next attempt
    inside the window is admitted when [n < 100] and refused with "Rate
    limit exceeded" when [n >= 100], in which case nothing but the
    limiter's own counter changes; an attempt made once the window is
    over is admitted again. *)
Theorem connection_quota (c : Config) (hs : Handshake) (sid : string) (env : Env)
    (st : Server) (socket : Socket) (rl0 : gmap string Bucket)
    (t0 : Z) (ts : list Z) :
  authenticate c hs sid env = inr socket →
  (∀ b, rl0 !! address hs = Some b → expiresAt b ≤ t0) →
  Forall (fun t => t < t0 + duration * 1000) ts →
  rateLimiter st = consume_each (address hs) (t0 :: ts) rl0 →
  let n := Z.of_nat (length (t0 :: ts)) in
  let st' := fst (connect c hs sid env st) in
  (now env < t0 + duration * 1000 → n < points →
     snd (connect c hs sid env st) = inr socket)
  ∧ (now env < t0 + duration * 1000 → points ≤ n →
     snd (connect c hs sid env st) = inl "Rate limit exceeded"
     ∧ st' = set_rateLimiter (rateLimiter st') st)
  ∧ (t0 + duration * 1000 ≤ now env →
     snd (connect c hs sid env st) = inr socket).
Proof.
  intros Hauth Hopen Hts Hrl n st'.
  pose proof (consume_each_window (address hs) t0 ts rl0 Hopen Hts) as Hb.
  rewrite <- Hrl in Hb. fold n in Hb.
  subst st'. unfold connect, consume, incrby. rewrite Hauth, Hb. simpl expiresAt.
  unfold points in *. repeat split.
  - intros Hin Hn. destruct (Z.ltb_spec (now env) (t0 + duration * 1000)); [|lia].
    simpl. destruct (Z.leb_spec (n + 1) 100); [reflexivity|lia].
  - destruct (Z.ltb_spec (now env) (t0 + duration * 1000)); [|lia].
    simpl. destruct (Z.leb_spec (n + 1) 100); [lia|reflexivity].
  - destruct (Z.ltb_spec (now env) (t0 + duration * 1000)); [|lia].
    simpl. destruct (Z.leb_spec (n + 1) 100); [lia|reflexivity].
  - intros Hover. destruct (Z.ltb_spec (now env) (t0 + duration * 1000)); [lia|].
    reflexivity.
Qed.

(** *** An invariant of the event loop *)

Lemma handle_member_sets (kind : Kind) (socket : Socket) (data : JsVal)
    (env : Env) (st : Server) :
  activeSessions (handle kind socket data env st) = activeSessions st
  ∧ activeProjects (handle kind socket data env st) = activeProjects st.
Proof.
  by_kind kind data; split; reflexivity.
Qed.

Lemma connect_member_sets (c : Config) (hs : Handshake) (sid : string) (env : Env)
    (st : Server) :
  activeSessions (fst (connect c hs sid env st)) = activeSessions st
  ∧ activeProjects (fst (connect c hs sid env st)) = activeProjects st.
Proof.
  unfold connect. destruct (authenticate c hs sid env); [split; reflexivity|].
  destruct (consume _ _ _) as [rl [|]]; split; reflexivity.
Qed.

Lemma timeout_member_sets (env : Env) (st st' : Server) :
  step Timeout1000 env st = Some st' ∨ step Timeout500 env st = Some st' →
  activeSessions st' = activeSessions st ∧ activeProjects st' = activeProjects st.
Proof.
  intros [Hstep|Hstep]; simpl in Hstep.
  - destruct (timers_1000 st) as [|t rest].
    + injection Hstep as <-. split; reflexivity.
    + unfold ai_response in Hstep. simpl in Hstep.
      destruct (messageHistory st !! ai_sessionKey t); [|discriminate].
      injection Hstep as <-. split; reflexivity.
  - destruct (timers_500 st) as [|t rest].
    + injection Hstep as <-. split; reflexivity.
    + unfold command_output in Hstep.
      destruct (ct_value t); [|discriminate].
      injection Hstep as <-. split; reflexivity.
Qed.

Lemma step_no_empty (i : Input) (env : Env) (st st' : Server) :
  step i env st = Some st' →
  no_empty (activeSessions st) ∧ no_empty (activeProjects st) →
  no_empty (activeSessions st') ∧ no_empty (activeProjects st').
Proof.
  intros Hstep [Hs Hp].
  destruct i as [hs sid|kind sid data|sid projectId|sid sessionId|sid| |].
  - injection Hstep as <-.
    destruct (connect_member_sets cfg hs sid env st) as [-> ->]. by split.
  - simpl in Hstep. destruct (sockets st !! sid) as [socket|];
      injection Hstep as <-; [|by split].
    destruct (handle_member_sets kind socket data env st) as [-> ->]. by split.
  - simpl in Hstep. destruct (sockets st !! sid) as [socket|];
      injection Hstep as <-; [|by split].
    unfold on_join_project. destruct (truthy projectId); simpl; [|by split].
    split; [exact Hs|by apply track_no_empty].
  - simpl in Hstep. destruct (sockets st !! sid) as [socket|];
      injection Hstep as <-; [|by split].
    unfold on_join_session. destruct (truthy sessionId); simpl; [|by split].
    split; [by apply track_no_empty|exact Hp].
  - simpl in Hstep. destruct (sockets st !! sid) as [socket|];
      injection Hstep as <-; [|by split].
    unfold on_disconnect; simpl. split; by apply untrack_no_empty.
  - destruct (timeout_member_sets env st st' (or_introl Hstep)) as [-> ->]. by split.
  - destruct (timeout_member_sets env st st' (or_intror Hstep)) as [-> ->]. by split.
Qed.

(** Whatever the inputs, the registry never holds a room without members:
    rooms exist from their first join to the departure of their last
    member. *)
Lemma run_no_empty (inputs : list (Input * Env)) (st st' : Server) :
  run inputs st = Some st' →
  no_empty (activeSessions st) ∧ no_empty (activeProjects st) →
  no_empty (activeSessions st') ∧ no_empty (activeProjects st').
Proof.
  revert st. induction inputs as [|[i env] rest IH]; intros st Hrun Hst.
  - injection Hrun as <-. exact Hst.
  - simpl in Hrun. destruct (step i env st) as [st1|] eqn:Hstep; [|discriminate].
    simpl in Hrun. apply (IH st1 Hrun). exact (step_no_empty i env st st1 Hstep Hst).
Qed.

Lemma reachable_no_empty (inputs : list (Input * Env)) (st : Server) :
  run inputs init = Some st →
  no_empty (activeSessions st) ∧ no_empty (activeProjects st).
Proof.
  intros Hrun. apply (run_no_empty inputs init st Hrun).
  split; intros id users Hl; simpl in Hl; rewrite lookup_empty in Hl; discriminate.
Qed.

End Hub.

(** ** The model at work

    The runs below take [canonical_uuid], [no_json] and [one_token] for
    the three library parameters. *)

Lemma member_of (sid room : string) (st : Server) :
  bool_decide (sid ∈ members room st) = true → sid ∈ members room st.
Proof. intros Hb. apply bool_decide_eq_true in Hb. exact Hb. Defined.

(** A chat message whose session id is not a UUID is answered by an error
    to its sender; B, in the same room, is sent nothing and the history
    stays empty. *)
Lemma validation_isolation_witness :
  let data := JObj [("content", JStr "hi"); ("sessionId", JStr "s1")] in
  let st' := handle canonical_uuid no_json k_chat_message A data (at_ "m1" 10) room_AB in
  schema_error canonical_uuid no_json k_chat_message data = Some (string_guid "sessionId")
  ∧ messageHistory st' = messageHistory room_AB
  ∧ received "B" st' = received "B" room_AB.
Proof.
  intros data st'.
  assert (schema_error canonical_uuid no_json k_chat_message data
          = Some (string_guid "sessionId")) as Herr by (vm_compute; reflexivity).
  destruct (validation_isolation canonical_uuid no_json k_chat_message A data
              (at_ "m1" 10) room_AB _ Herr) as (_ & Hhist & _ & _ & _ & _ & _ & Hothers).
  split; [exact Herr|]. split; [exact Hhist|].
  apply Hothers. discriminate.
Defined.

(** A forged token is refused although NODE_ENV is unset. *)
Lemma invalid_credential_rejected_witness :
  authenticate one_token development (bearer "forged") "A" (at_ "a" 0)
  = inl "Invalid authentication token"
  ∧ connect one_token development (bearer "forged") "A" (at_ "a" 0) init
    = (init, inl "Invalid authentication token").
Proof.
  apply (invalid_credential_rejected one_token development (bearer "forged")
           "A" (at_ "a" 0) init "Bearer forged").
  - reflexivity.
  - vm_compute; reflexivity.
Defined.

(** With NODE_ENV=production a connection without credential is refused. *)
Lemma missing_credential_policy_witness :
  authenticate one_token production no_credential "A" (at_ "a" 0)
  = inl "Authentication required".
Proof.
  destruct (missing_credential_policy one_token production no_credential
              "A" (at_ "a" 0) eq_refl) as (_ & _ & Hrefused).
  apply Hrefused. vm_compute. discriminate.
Defined.

(** With no NODE_ENV at all, a connection without credential is admitted
    as an anonymous identity. *)
Lemma default_configuration_admits_anonymous :
  env_NODE_ENV development = None
  ∧ presented_token no_credential = None
  ∧ authenticate one_token development no_credential "A" (at_ "a" 0) = inr A.
Proof. repeat split. Qed.

(** Joining [s1] again, from the same or from a second connection of A's
    identity, leaves the member sets as they are. *)
Lemma join_idempotent_witness :
  let st1 := on_join_session A s1 init in
  activeSessions (on_join_session A s1 st1) = activeSessions st1
  ∧ rooms (on_join_session A s1 st1) = rooms st1
  ∧ activeSessions (on_join_session A' s1 st1) = activeSessions st1.
Proof.
  destruct (join_idempotent A A' s1 init eq_refl)
    as ((Hsessions & _ & Hrooms & _ & Hother) & _).
  exact (conj Hsessions (conj Hrooms Hother)).
Defined.

(** A closes while A2, of the same identity, stays connected: session
    [s1] is deleted all the same when the two were its only members, and
    is kept, with B as its only member, when B had joined it too. *)
Lemma disconnect_removes_identity_witness :
  sockets (on_disconnect A room_AA') !! "A2" = Some A'
  ∧ activeSessions room_AA' !! s1 = Some {[userId A']}
  ∧ activeSessions (on_disconnect A room_AA') !! s1 = None
  ∧ activeSessions room_AA'B !! s1 = Some {[userId A; userId B]}
  ∧ activeSessions (on_disconnect A room_AA'B) !! s1
    = Some ({[userId A; userId B]} ∖ {[userId A]})
  ∧ userId B ∈ ({[userId A; userId B]} : gset string) ∖ {[userId A]}.
Proof.
  assert (sockets room_AA' !! socket_id A' = Some A') as Hsib
    by (vm_compute; reflexivity).
  assert (activeSessions room_AA' !! s1 = Some {[userId A]}) as Hroom
    by (vm_compute; reflexivity).
  assert (activeSessions room_AA'B !! s1 = Some {[userId A; userId B]}) as Hroom3
    by (vm_compute; reflexivity).
  destruct (disconnect_removes_identity A room_AA')
    as (_ & _ & _ & _ & _ & _ & _ & _ & _ & _ & Hdeleted & _ & _ & _ & Hsibling).
  destruct (Hsibling A' Hsib ltac:(discriminate) eq_refl) as (Hopen & _).
  destruct (disconnect_removes_identity A room_AA'B)
    as (_ & _ & Hstay & _).
  destruct (Hstay s1 {[userId A; userId B]} (userId B) Hroom3)
    as (Hkept & Hmember); [set_solver|discriminate|].
  split; [exact Hopen|]. split; [exact Hroom|].
  split; [apply Hdeleted, Hroom|].
  split; [exact Hroom3|]. split; [exact Hkept|exact Hmember].
Defined.

(** After 51 chat messages, C is sent the last 50 of them. *)
Lemma replay_last_50_witness :
  let st := on_connection C (chats canonical_uuid no_json 51 room_AB) in
  let h := default [] (messageHistory st !! ("session:" +:+ s1)) in
  length h = 51%nat
  ∧ outbox (on_join_session C s1 st)
    = outbox st
      ++ [ {| recipients := {["C"]}; payload := session_history s1 (drop 1 h) |};
           {| recipients := {["C"]}; payload := session_joined s1 |} ].
Proof.
  intros st h.
  assert (messageHistory st !! ("session:" +:+ s1) = Some h) as Hh
    by (vm_compute; reflexivity).
  assert (length h = 51%nat) as Hlen by (vm_compute; reflexivity).
  split; [exact Hlen|].
  destruct (replay_last_50 C s1 st h eq_refl Hh ltac:(rewrite Hlen; lia))
    as (Hout & _).
  rewrite Hlen in Hout. exact Hout.
Defined.

(** A, alone in [s1], sends a message and disconnects; the room is
    deleted, yet C, joining next, is sent A's message. *)
Lemma retired_room_keeps_history_witness :
  let st := on_connection C (on_chat_message canonical_uuid no_json A hi (at_ "m1" 10) room_A) in
  activeSessions (on_disconnect A st) !! s1 = None
  ∧ activeSessions (on_join_session C s1 (on_disconnect A st)) !! s1 = Some {[userId C]}.
Proof.
  intros st.
  assert (activeSessions st !! s1 = Some {[userId A]}) as Hlast
    by (vm_compute; reflexivity).
  destruct (retired_room_keeps_history A C s1 st eq_refl Hlast)
    as (Hgone & _ & Hfresh & _).
  split; assumption.
Defined.

Lemma retired_room_replays_history :
  let st := on_connection C (on_chat_message canonical_uuid no_json A hi (at_ "m1" 10) room_A) in
  activeSessions (on_disconnect A st) !! s1 = None
  ∧ received "C" (on_join_session C s1 (on_disconnect A st))
    = [ session_history s1 [new_message A hi_value (at_ "m1" 10)];
        session_joined s1 ].
Proof. split; vm_compute; reflexivity. Qed.

(** A sends "hi" to the room of A and B: B is sent the message and the AI
    response, A the AI response only, and C, joining afterwards, both. *)
Lemma chat_delivery_order_witness :
  let message := new_message A hi_value (at_ "m1" 10) in
  let aiResponse := new_aiResponse hi_value (at_ "m2" 1010) in
  ∃ st2,
    step canonical_uuid no_json one_token development Timeout1000 (at_ "m2" 1010)
      (on_chat_message canonical_uuid no_json A hi (at_ "m1" 10) room_AB) = Some st2
    ∧ received "B" st2
      = received "B" room_AB ++ [chat_message message; chat_message aiResponse]
    ∧ received "A" st2 = received "A" room_AB ++ [chat_message aiResponse]
    ∧ received "C" (on_join_session C s1 st2)
      = received "C" st2
        ++ [session_history s1 [message; aiResponse]; session_joined s1].
Proof.
  intros message aiResponse.
  destruct (chat_delivery_order canonical_uuid no_json one_token development
              A C hi hi_value (at_ "m1" 10) (at_ "m2" 1010) room_AB
              ltac:(vm_compute; reflexivity) eq_refl)
    as (st2 & Hstep & Hothers & Hsender & _ & _ & Hreplay & _).
  exists st2. split; [exact Hstep|]. split; [|split].
  - apply Hothers; [|discriminate].
    apply member_of. vm_compute. reflexivity.
  - apply Hsender. apply member_of. vm_compute. reflexivity.
  - exact Hreplay.
Defined.

(** ... so the sender is not sent its own message. *)
Lemma sender_is_not_sent_its_message :
  ¬ observed_by_all ("session:" +:+ s1)
      [ chat_message (new_message A hi_value (at_ "m1" 10));
        chat_message (new_aiResponse hi_value (at_ "m2" 1010)) ]
      room_AB
      (step canonical_uuid no_json one_token development Timeout1000 (at_ "m2" 1010)
         (on_chat_message canonical_uuid no_json A hi (at_ "m1" 10) room_AB)).
Proof.
  intros (st2 & Hstep & Hall).
  assert ("A" ∈ members ("session:" +:+ s1) room_AB) as HA
    by (apply member_of; vm_compute; reflexivity).
  specialize (Hall "A" HA). clear HA.
  assert (received "A"
            <$> step canonical_uuid no_json one_token development Timeout1000
                  (at_ "m2" 1010)
                  (on_chat_message canonical_uuid no_json A hi (at_ "m1" 10) room_AB)
          = Some [ session_history s1 []; session_joined s1;
                   chat_message (new_aiResponse hi_value (at_ "m2" 1010)) ]) as Hrun
    by (vm_compute; reflexivity).
  rewrite Hstep in Hrun. apply (inj Some) in Hrun.
  assert (received "A" room_AB = [session_history s1 []; session_joined s1])
    as Hbefore by (vm_compute; reflexivity).
  rewrite Hrun, Hbefore in Hall. discriminate Hall.
Qed.

(** The first message of a session is stored under a fresh uuid and
    timestamp. *)
Lemma history_in_acceptance_order_witness :
  messageHistory (on_chat_message canonical_uuid no_json A hi (at_ "m1" 10) init)
    !! ("session:" +:+ s1)
  = Some [new_message A hi_value (at_ "m1" 10)]
  ∧ m_id (new_message A hi_value (at_ "m1" 10)) = "m1".
Proof.
  destruct (history_in_acceptance_order canonical_uuid no_json A hi hi_value
              (at_ "m1" 10) (at_ "m2" 1010) init ltac:(vm_compute; reflexivity))
    as (Hid & _ & Hhist & _).
  split; [exact Hhist|exact Hid].
Defined.

(** No function of the stored events numbers them in increasing order:
    two messages accepted within one millisecond differ in their random
    identifier only, and either of the two identifiers may come first. *)
Lemma no_sequence_number :
  ¬ ∃ seq : Message -> Z,
      ∀ (env1 env2 : Env) (h : list Message),
        messageHistory
          (on_chat_message canonical_uuid no_json A hi env2
             (on_chat_message canonical_uuid no_json A hi env1 init))
          !! ("session:" +:+ s1) = Some h →
        increasing seq h.
Proof.
  intros (seq & Hseq).
  assert (∀ env1 env2,
    messageHistory
      (on_chat_message canonical_uuid no_json A hi env2
         (on_chat_message canonical_uuid no_json A hi env1 init))
      !! ("session:" +:+ s1)
    = Some [new_message A hi_value env1; new_message A hi_value env2]) as Hh
    by (intros; vm_compute; reflexivity).
  pose proof (Hseq (at_ "u1" 10) (at_ "u2" 10) _ (Hh _ _) 0%nat 1%nat _ _
                ltac:(lia) eq_refl eq_refl) as H12.
  pose proof (Hseq (at_ "u2" 10) (at_ "u1" 10) _ (Hh _ _) 0%nat 1%nat _ _
                ltac:(lia) eq_refl eq_refl) as H21.
  lia.
Qed.

(** The 101st connection attempt of an address within the window is
    refused, and the one after the window is admitted. *)
Lemma connection_quota_witness :
  let st := set_rateLimiter (consume_each "10.0.0.1" hundred_attempts ∅) init in
  let refused := connect one_token development no_credential "A" (at_ "a" 100) st in
  snd refused = inl "Rate limit exceeded"
  ∧ fst refused = set_rateLimiter (rateLimiter (fst refused)) st
  ∧ snd (connect one_token development no_credential "A" (at_ "a" 60000) st) = inr A.
Proof.
  intros st refused.
  assert (Forall (fun t => t < 0 + duration * 1000) later_attempts) as Hts
    by (apply (bool_decide_unpack _); vm_compute; exact I).
  assert (∀ b : Bucket, (∅ : gmap string Bucket) !! address no_credential = Some b →
                        expiresAt b ≤ 0) as Hopen
    by (intros b Hb; rewrite lookup_empty in Hb; discriminate Hb).
  assert (rateLimiter st = consume_each (address no_credential) (0 :: later_attempts) ∅)
    as Hrl by reflexivity.
  assert (authenticate one_token development no_credential "A" (at_ "a" 100) = inr A) as Hauth by reflexivity.
  pose proof (connection_quota one_token development
              no_credential "A" (at_ "a" 100) st A ∅ 0 later_attempts
              Hauth Hopen Hts Hrl) as H1.
  pose proof (connection_quota one_token development
              no_credential "A" (at_ "a" 60000) st A ∅ 0 later_attempts
              Hauth Hopen Hts Hrl) as H2.
  cbv zeta in H1, H2.
  destruct H1 as (_ & Hrefused & _).
  destruct H2 as (_ & _ & Hagain).
  assert (points ≤ Z.of_nat (length (0 :: later_attempts))) as Hn by (vm_compute; discriminate).
  destruct (Hrefused eq_refl Hn) as (Hsnd & Hfst).
  split; [exact Hsnd|]. split; [exact Hfst|].
  apply Hagain. vm_compute. discriminate.
Defined.

(** C3 (the code at the failing input). One hundred and one valid chat
    messages sent by A within a tenth of a second, in the room of A and
    B: the 101st is not refused. B is sent it like the hundred before,
    and A is sent no error. *)
Lemma chat_messages_are_not_counted :
  received "B" (chats canonical_uuid no_json 101 room_AB)
  = received "B" (chats canonical_uuid no_json 100 room_AB)
    ++ [chat_message (new_message A hi_value (at_ (pretty 100%nat) 100))]
  ∧ received "A" (chats canonical_uuid no_json 101 room_AB) = received "A" room_AB.
Proof. split; vm_compute; reflexivity. Qed.
